(** * The acquisition-optimizer base class of emukit, embedded in Rocq

    Source: [emukit/core/optimization/acquisition_optimizer.py], class
    [AcquisitionOptimizerBase].  The class validates an optional context,
    builds a [ContextManager], hands the search to the abstract method
    [_optimize], rounds the location it gets back and evaluates the
    acquisition again when rounding moved the point.

    The embedding is a shallow one.  Python values that the class only
    passes around (context values, numpy arrays, the GPyOpt design space,
    the exceptions of a concrete search) are abstract types; the objects it
    calls into are records of functions; the body of every method is a
    computation in a small monad with a mutable store, exceptions and the
    list of the actions the base class itself performs. *)

From Stdlib Require Import String List Bool ZArith Lia DecimalString Permutation.
Import ListNotations.
Open Scope string_scope.
Open Scope list_scope.

Set Implicit Arguments.

(** ** Outcomes and the monad *)

Section Monad.

Variables (HookExn Store Event : Type).

(** A Python exception.  [ValueError msg] is the object created by the
    [raise] statement of [_validate_context_parameters]; [HookFailure e]
    is the object [e] that a concrete [_optimize] raised, carried as it
    is: the base class has no [try] and never looks inside it. *)
Inductive exn : Type :=
| ValueError (msg : string)
| HookFailure (e : HookExn).

Inductive outcome (A : Type) : Type :=
| Return (a : A)
| Raise (e : exn).

Arguments Raise {A} e.

(** A computation starts from a store and yields an outcome, the store it
    leaves and the actions it performed, oldest first. *)
Definition M (A : Type) : Type := Store -> outcome A * Store * list Event.

Definition ret {A} (a : A) : M A := fun s => (Return a, s, []).

Definition raise {A} (e : exn) : M A := fun s => (Raise e, s, []).

Definition emit (ev : Event) : M unit := fun s => (Return tt, s, [ev]).

Definition get : M Store := fun s => (Return s, s, []).

Definition bind {A B} (m : M A) (k : A -> M B) : M B :=
  fun s =>
    match m s with
    | (Return a, s1, t1) =>
        let '(r, s2, t2) := k a s1 in (r, s2, t1 ++ t2)
    | (Raise e, s1, t1) => (Raise e, s1, t1)
    end.

(** [for x in l: body(x)], where an exception in the body leaves the loop. *)
Fixpoint for_each {A} (l : list A) (body : A -> M unit) : M unit :=
  match l with
  | [] => ret tt
  | x :: l' => bind (body x) (fun _ => for_each l' body)
  end.

Definition result_of {A} (r : outcome A * Store * list Event) : outcome A :=
  fst (fst r).
Definition store_of {A} (r : outcome A * Store * list Event) : Store :=
  snd (fst r).
Definition trace_of {A} (r : outcome A * Store * list Event) : list Event :=
  snd r.

End Monad.

Arguments ValueError {HookExn} msg.
Arguments Raise {HookExn A} e.
Arguments Return {HookExn A} a.
Arguments ret {HookExn Store Event A} a.
Arguments raise {HookExn Store Event A} e.
Arguments emit {HookExn Store Event} ev.
Arguments get {HookExn Store Event}.

Declare Scope py_scope.
Delimit Scope py_scope with py.
Notation "x <- m ;; k" := (bind m (fun x => k))
  (at level 61, m at next level, right associativity) : py_scope.
Notation "' pat <- m ;; k" := (bind m (fun x => match x with pat => k end))
  (at level 61, pat pattern, m at next level, right associativity) : py_scope.
Notation "m ;;; k" := (bind m (fun _ => k))
  (at level 61, right associativity) : py_scope.

(** ** The collaborators and the class *)

Section AcquisitionOptimizerBase.

(** [Value]: a value of a context entry.  [Vec]: a numpy array holding a
    location.  [Scalar]: what [Acquisition.evaluate] returns.
    [DesignSpace]: the GPyOpt design space.  [World]: the state of every
    object other than the optimizer (the acquisition, the private state of
    a concrete search).  [HookExn]: what a concrete [_optimize] can raise. *)
Variables (Value Vec Scalar DesignSpace World HookExn : Type).

(** Python's [str] on a context value. *)
Variable str : Value -> string.

(** [np.array_equal]; nothing is assumed of it, not even reflexivity. *)
Variable array_equal : Vec -> Vec -> bool.

(** Modelled from the spec: the class [Parameter] (a reserved word of Rocq,
    hence [Param]), of which the source calls
    [check_in_domain(value) -> bool]. *)
Record Param : Type := {
  check_in_domain : Value -> bool
}.

(** Modelled from the spec: the class [ParameterSpace], of which the source
    uses [parameter_names], [get_parameter_by_name(name) -> Parameter],
    [convert_to_gpyopt_design_space() -> DesignSpace] and
    [round(vector) -> vector]. *)
Record ParameterSpace : Type := {
  parameter_names : list string;
  get_parameter_by_name : string -> Param;
  convert_to_gpyopt_design_space : DesignSpace;
  round : Vec -> Vec
}.

(** [Context = Dict[str, any]]; the list is [context.items()], in the
    iteration order of the dict. *)
Definition Context : Type := list (string * Value).

(** Modelled from the spec: the class [ContextManager], constructed from
    [(space, context_mapping, design_space_encoding)]; the object keeps the
    three arguments it was built from. *)
Record ContextManager : Type := {
  cm_space : ParameterSpace;
  cm_context : Context;
  cm_gpyopt_space : DesignSpace
}.

(** The two attributes of an optimizer instance. *)
Record Optimizer : Type := {
  space : ParameterSpace;
  gpyopt_space : DesignSpace
}.

(** The mutable store: the optimizer [self] and everything else. *)
Record Store : Type := {
  self : Optimizer;
  world : World
}.

(** Modelled from the spec: the class [Acquisition], of which the source
    calls [evaluate(vector) -> scalar].  The call may change the store: a
    stub that answers differently from one call to the next keeps its
    counter there. *)
Record Acquisition : Type := {
  evaluate : Vec -> Store -> Scalar * Store
}.

(** What the base class does that can be observed from outside, one
    constructor per statement of the source that calls out. *)
Inductive Event : Type :=
| LogWarning (msg : string) (args : list string)
| LogInfo (msg : string)
| NewContextManager (cm : ContextManager)
| CallOptimize (acquisition : Acquisition) (cm : ContextManager)
| CallEvaluate (acquisition : Acquisition) (x : Vec).

Local Abbreviation Py := (M HookExn Store Event).

(** The abstract method [_optimize]: any function of the acquisition, the
    context manager and the store.  It raises ([inl e]) or returns a pair
    of a location and a value ([inr (x, v)]), and leaves whatever store it
    likes: it is a method of [self], so it can write the attributes of the
    optimizer too. *)
Variable _optimize :
  Acquisition -> ContextManager -> Store -> (HookExn + Vec * Scalar) * Store.

(** [__init__] *)
Definition __init__ (sp : ParameterSpace) : Optimizer :=
  {| space := sp;
     gpyopt_space := convert_to_gpyopt_design_space sp |}.

(** [name in names] on a list of strings. *)
Definition contains (names : list string) (name : string) : bool :=
  existsb (String.eqb name) names.

(** The message of the [ValueError] of [_validate_context_parameters]. *)
Definition not_in_space (context_name : string) : string :=
  context_name ++ " appears as variable in context but not in the parameter space.".

Local Open Scope py_scope.

(** The body of the loop of [_validate_context_parameters]. *)
Definition validate_entry (entry : string * Value) : Py unit :=
  let '(context_name, context_value) := entry in
  s <- get ;;
  if negb (contains (parameter_names (space (self s))) context_name) then
    raise (ValueError (not_in_space context_name))
  else
    let param := get_parameter_by_name (space (self s)) context_name in
    if Bool.eqb (check_in_domain param context_value) false then
      emit (LogWarning (context_name ++ " with value " ++ str context_value)
                       [" is out of the domain"])
    else
      emit (LogInfo ("Parameter " ++ context_name ++ " fixed to " ++ str context_value)).

Definition _validate_context_parameters (context : Context) : Py unit :=
  for_each context validate_entry.

(** The call [self._optimize(acquisition, context_manager)]. *)
Definition call_optimize (acquisition : Acquisition) (cm : ContextManager)
  : Py (Vec * Scalar) :=
  fun s =>
    match _optimize acquisition cm s with
    | (inr r, s1) => (Return r, s1, [CallOptimize acquisition cm])
    | (inl e, s1) => (Raise (HookFailure e), s1, [CallOptimize acquisition cm])
    end.

(** The call [acquisition.evaluate(x)]. *)
Definition call_evaluate (acquisition : Acquisition) (x : Vec) : Py Scalar :=
  fun s =>
    let '(v, s1) := evaluate acquisition x s in
    (Return v, s1, [CallEvaluate acquisition x]).

(** [optimize] *)
Definition optimize (acquisition : Acquisition) (context : option Context)
  : Py (Vec * Scalar) :=
  context <- match context with
             | None => ret []
             | Some context => _validate_context_parameters context ;;; ret context
             end ;;
  s <- get ;;
  let context_manager :=
    {| cm_space := space (self s);
       cm_context := context;
       cm_gpyopt_space := gpyopt_space (self s) |} in
  emit (NewContextManager context_manager) ;;;
  '(max_x, max_value) <- call_optimize acquisition context_manager ;;
  s <- get ;;
  let rounded_max_x := round (space (self s)) max_x in
  if negb (array_equal max_x rounded_max_x) then
    v <- call_evaluate acquisition rounded_max_x ;;
    ret (rounded_max_x, v)
  else
    ret (max_x, max_value).

(** ** Vocabulary of the statements *)

(** The context that [optimize] works with after its first statement:
    [dict()] when the argument is [None], the argument otherwise. *)
Definition context_of (context : option Context) : Context :=
  match context with
  | None => []
  | Some context => context
  end.

(** The context manager that [optimize] builds in store [s]. *)
Definition context_manager_of (s : Store) (context : option Context)
  : ContextManager :=
  {| cm_space := space (self s);
     cm_context := context_of context;
     cm_gpyopt_space := gpyopt_space (self s) |}.

(** Every key of the context is a parameter name of the space. *)
Definition names_known (sp : ParameterSpace) (context : Context) : bool :=
  forallb (fun entry => contains (parameter_names sp) (fst entry)) context.

(** The same for the optional argument of [optimize]: [None] has no key. *)
Definition context_known (sp : ParameterSpace) (context : option Context)
  : bool :=
  names_known sp (context_of context).

(** The log record that the loop body writes for an entry whose name is a
    parameter name: a warning when [check_in_domain] answers [False], an
    information otherwise. *)
Definition diagnostic (sp : ParameterSpace) (entry : string * Value) : Event :=
  let '(context_name, context_value) := entry in
  if Bool.eqb (check_in_domain (get_parameter_by_name sp context_name) context_value) false
  then LogWarning (context_name ++ " with value " ++ str context_value)
                  [" is out of the domain"]
  else LogInfo ("Parameter " ++ context_name ++ " fixed to " ++ str context_value).

(** The log records of a whole validation that does not raise; none when
    the context argument is [None], since then nothing is validated. *)
Definition diagnostics (sp : ParameterSpace) (context : option Context)
  : list Event :=
  match context with
  | None => []
  | Some context => map (diagnostic sp) context
  end.

Definition is_log (ev : Event) : bool :=
  match ev with
  | LogWarning _ _ | LogInfo _ => true
  | _ => false
  end.

Definition is_evaluate (ev : Event) : bool :=
  match ev with
  | CallEvaluate _ _ => true
  | _ => false
  end.

Definition is_search (ev : Event) : bool :=
  match ev with
  | CallOptimize _ _ => true
  | _ => false
  end.

(** A valid encoding of the space: a vector that [round] leaves equal to
    itself under [np.array_equal]. *)
Definition valid_encoding (sp : ParameterSpace) (x : Vec) : bool :=
  array_equal x (round sp x).

(** A sequence of calls of [optimize] on one optimizer, each starting from
    the store the previous one left, whether it returned or raised. *)
Definition optimize_calls (calls : list (Acquisition * option Context))
  (s : Store) : Store :=
  fold_left (fun s call => store_of (optimize (fst call) (snd call) s)) calls s.

Definition is_warning (ev : Event) : bool :=
  match ev with
  | LogWarning _ _ => true
  | _ => false
  end.

Definition is_info (ev : Event) : bool :=
  match ev with
  | LogInfo _ => true
  | _ => false
  end.

(** The test of the loop body on an entry whose name is a parameter name:
    [param.check_in_domain(context_value) is False]. *)
Definition out_of_domain (sp : ParameterSpace) (entry : string * Value) : bool :=
  Bool.eqb (check_in_domain (get_parameter_by_name sp (fst entry)) (snd entry)) false.

End AcquisitionOptimizerBase.

Arguments LogWarning {Value Vec Scalar DesignSpace World} msg args.
Arguments LogInfo {Value Vec Scalar DesignSpace World} msg.
Arguments NewContextManager {Value Vec Scalar DesignSpace World} cm.
Arguments CallOptimize {Value Vec Scalar DesignSpace World} acquisition cm.
Arguments CallEvaluate {Value Vec Scalar DesignSpace World} acquisition x.
Arguments is_log {Value Vec Scalar DesignSpace World} ev.
Arguments is_evaluate {Value Vec Scalar DesignSpace World} ev.
Arguments is_search {Value Vec Scalar DesignSpace World} ev.
Arguments is_warning {Value Vec Scalar DesignSpace World} ev.
Arguments is_info {Value Vec Scalar DesignSpace World} ev.

(** ** A concrete optimizer

    The scenario of the specification: one continuous parameter ["x"] over
    [[0, 10]] on a grid of spacing 1.  Numbers are counted in tenths, so
    that [34] stands for 3.4 and the grid is the multiples of [10] between
    [0] and [100].  The world is the number of evaluations the stub
    acquisition has served so far. *)

Module Scenario.

Definition str (v : Z) : string := NilZero.string_of_int (Z.to_int v).

Definition array_equal (a b : list Z) : bool :=
  Nat.eqb (length a) (length b)
  && forallb (fun p => Z.eqb (fst p) (snd p)) (combine a b).

Definition x_param : Param Z :=
  {| check_in_domain := fun v => (0 <=? v)%Z && (v <=? 100)%Z |}.

Definition snap (z : Z) : Z := Z.max 0 (Z.min 100 (10 * ((z + 5) / 10))).

Definition the_space : ParameterSpace Z (list Z) (list (string * Z * Z)) :=
  {| parameter_names := ["x"];
     get_parameter_by_name := fun _ => x_param;
     convert_to_gpyopt_design_space := [("x", 0, 100)%Z];
     round := map snap |}.

Definition S0 : Type := Store Z (list Z) (list (string * Z * Z)) nat.

(** An acquisition whose answer changes from one call to the next. *)
Definition stub_acquisition : Acquisition Z (list Z) Z (list (string * Z * Z)) nat :=
  {| evaluate := fun x (s : S0) =>
       ((fold_right Z.add 0 x + 1000 * Z.of_nat (world s))%Z,
        {| self := self s; world := S (world s) |}) |}.

Definition CM0 : Type := ContextManager Z (list Z) (list (string * Z * Z)).

(** A search that ignores the context and reports 3.4, off the grid. *)
Definition hook_off_grid (a : Acquisition Z (list Z) Z (list (string * Z * Z)) nat)
  (cm : CM0) (s : S0) : (string + list Z * Z) * S0 :=
  (inr ([34%Z], 777%Z), s).

(** A search that reports 3.0, on the grid. *)
Definition hook_on_grid (a : Acquisition Z (list Z) Z (list (string * Z * Z)) nat)
  (cm : CM0) (s : S0) : (string + list Z * Z) * S0 :=
  (inr ([30%Z], 777%Z), s).

(** A search that fails. *)
Definition hook_failing (a : Acquisition Z (list Z) Z (list (string * Z * Z)) nat)
  (cm : CM0) (s : S0) : (string + list Z * Z) * S0 :=
  (inl "search failed", s).

(** An acquisition without state. *)
Definition plain_acquisition : Acquisition Z (list Z) Z (list (string * Z * Z)) nat :=
  {| evaluate := fun x (s : S0) => (fold_right Z.add 0%Z x, s) |}.

Definition store0 : S0 := {| self := __init__ the_space; world := 0%nat |}.

(** [optimize] of the optimizer whose [_optimize] is [hook]. *)
Definition run
  (hook : Acquisition Z (list Z) Z (list (string * Z * Z)) nat ->
          CM0 -> S0 -> (string + list Z * Z) * S0) :=
  optimize str array_equal hook.

End Scenario.

(** The same optimizer over a space with a second parameter ["y"], and the
    validation of the concrete optimizers. *)

Module ScenarioXY.

Definition xy_space : ParameterSpace Z (list Z) (list (string * Z * Z)) :=
  {| parameter_names := ["x"; "y"];
     get_parameter_by_name := fun _ => Scenario.x_param;
     convert_to_gpyopt_design_space := [("x", 0, 100)%Z; ("y", 0, 100)%Z];
     round := map Scenario.snap |}.

Definition store_xy : Scenario.S0 :=
  {| self := __init__ xy_space; world := 0%nat |}.

Definition validate : Context Z -> M string Scenario.S0 (Event Z (list Z) Z (list (string * Z * Z)) nat) unit :=
  @_validate_context_parameters Z (list Z) Z (list (string * Z * Z)) nat string
    Scenario.str.

End ScenarioXY.

(** * Properties *)

(** ** Running a sequence *)

Section MonadLemmas.

Variables (HookExn Store Event : Type).

Lemma bind_Return {A B} (m : M HookExn Store Event A)
  (k : A -> M HookExn Store Event B) (s s1 : Store) (a : A) (t1 : list Event) :
  m s = (Return a, s1, t1) ->
  bind m k s = (result_of (k a s1), store_of (k a s1), t1 ++ trace_of (k a s1)).
Proof.
  intros H. unfold bind, result_of, store_of, trace_of. rewrite H.
  now destruct (k a s1) as [[r s2] t2].
Qed.

Lemma bind_Raise {A B} (m : M HookExn Store Event A)
  (k : A -> M HookExn Store Event B) (s s1 : Store) (e : exn HookExn)
  (t1 : list Event) :
  m s = (Raise e, s1, t1) ->
  bind m k s = (Raise e, s1, t1).
Proof.
  intros H. unfold bind. now rewrite H.
Qed.

Lemma for_each_cons {A} (x : A) (l : list A)
  (body : A -> M HookExn Store Event unit) :
  for_each (x :: l) body = bind (body x) (fun _ => for_each l body).
Proof. reflexivity. Qed.

End MonadLemmas.

Section Properties.

Variables (Value Vec Scalar DesignSpace World HookExn : Type).
Variable str : Value -> string.
Variable array_equal : Vec -> Vec -> bool.
Variable _optimize :
  Acquisition Value Vec Scalar DesignSpace World ->
  ContextManager Value Vec DesignSpace ->
  Store Value Vec DesignSpace World ->
  (HookExn + Vec * Scalar) * Store Value Vec DesignSpace World.

Local Abbreviation Space := (ParameterSpace Value Vec DesignSpace).
Local Abbreviation St := (Store Value Vec DesignSpace World).
Local Abbreviation Acq := (Acquisition Value Vec Scalar DesignSpace World).
Local Abbreviation Ev := (Event Value Vec Scalar DesignSpace World).
Local Abbreviation Ctx := (Context Value).
Local Abbreviation validate_one :=
  (@validate_entry Value Vec Scalar DesignSpace World HookExn str).
Local Abbreviation validate :=
  (@_validate_context_parameters Value Vec Scalar DesignSpace World HookExn str).
Local Abbreviation run := (optimize str array_equal _optimize).
Local Abbreviation diag := (@diagnostic Value Vec Scalar DesignSpace World str).
Local Abbreviation diags := (@diagnostics Value Vec Scalar DesignSpace World str).
Local Abbreviation valid := (valid_encoding array_equal).

(** ** Membership of a name *)

Lemma contains_In (names : list string) (name : string) :
  contains names name = true <-> In name names.
Proof.
  unfold contains. rewrite existsb_exists. split.
  - intros [n [Hin Heq]]. apply String.eqb_eq in Heq. now subst n.
  - intros Hin. exists name. split; [assumption | apply String.eqb_refl].
Qed.

Lemma contains_not_In (names : list string) (name : string) :
  contains names name = false <-> ~ In name names.
Proof.
  rewrite <- contains_In. destruct (contains names name); split; intros H.
  - discriminate.
  - now contradiction H.
  - discriminate.
  - reflexivity.
Qed.

Lemma names_known_In (sp : Space) (ctx : Ctx) :
  names_known sp ctx = true <->
  (forall name, In name (map fst ctx) -> In name (parameter_names sp)).
Proof.
  unfold names_known. rewrite forallb_forall. split.
  - intros H name Hin. apply in_map_iff in Hin.
    destruct Hin as [entry [<- Hentry]]. apply contains_In. now apply H.
  - intros H entry Hentry. apply contains_In. apply H.
    apply in_map_iff. now exists entry.
Qed.

Lemma names_known_cons (sp : Space) (name : string) (value : Value) (ctx : Ctx) :
  names_known sp ((name, value) :: ctx)
  = contains (parameter_names sp) name && names_known sp ctx.
Proof. reflexivity. Qed.

(** A context with an unknown name splits at the first one. *)
Lemma first_unknown (sp : Space) (ctx : Ctx) :
  names_known sp ctx = false ->
  exists pre name value post,
    ctx = pre ++ (name, value) :: post /\
    names_known sp pre = true /\
    contains (parameter_names sp) name = false.
Proof.
  induction ctx as [|[name value] rest IH]; simpl; intros H.
  - discriminate.
  - destruct (contains (parameter_names sp) name) eqn:Hname; simpl in H.
    + destruct (IH H) as (pre & n & v & post & -> & Hpre & Hn).
      exists ((name, value) :: pre), n, v, post. simpl.
      rewrite Hname, Hpre. now repeat split.
    + exists [], name, value, rest. now repeat split.
Qed.

(** ** The validation *)

Lemma validate_entry_known (s : St) (name : string) (value : Value) :
  contains (parameter_names (space (self s))) name = true ->
  validate_one (name, value) s
  = (Return tt, s, [diag (space (self s)) (name, value)]).
Proof.
  intros H. unfold validate_entry, bind, get, diagnostic. simpl. rewrite H. simpl.
  now destruct (Bool.eqb _ false).
Qed.

Lemma validate_entry_unknown (s : St) (name : string) (value : Value) :
  contains (parameter_names (space (self s))) name = false ->
  validate_one (name, value) s = (Raise (ValueError (not_in_space name)), s, []).
Proof.
  intros H. unfold validate_entry, bind, get. simpl. now rewrite H.
Qed.

Lemma validate_known (ctx : Ctx) (s : St) :
  names_known (space (self s)) ctx = true ->
  validate ctx s = (Return tt, s, map (diag (space (self s))) ctx).
Proof.
  unfold _validate_context_parameters.
  induction ctx as [|[name value] rest IH]; intros H.
  - reflexivity.
  - rewrite names_known_cons in H.
    apply andb_prop in H. destruct H as [Hname Hrest].
    rewrite for_each_cons.
    erewrite bind_Return by (now apply validate_entry_known).
    now rewrite (IH Hrest).
Qed.

Lemma validate_unknown (pre post : Ctx) (name : string) (value : Value) (s : St) :
  names_known (space (self s)) pre = true ->
  contains (parameter_names (space (self s))) name = false ->
  validate (pre ++ (name, value) :: post) s
  = (Raise (ValueError (not_in_space name)), s, map (diag (space (self s))) pre).
Proof.
  unfold _validate_context_parameters.
  induction pre as [|[n v] rest IH]; intros Hpre Hname.
  - simpl app. rewrite for_each_cons.
    now erewrite bind_Raise by (now apply validate_entry_unknown).
  - rewrite names_known_cons in Hpre.
    apply andb_prop in Hpre. destruct Hpre as [Hn Hrest].
    simpl app. rewrite for_each_cons.
    erewrite bind_Return by (now apply validate_entry_known).
    now rewrite (IH Hrest Hname).
Qed.

(** ** The whole of [optimize] *)

(** With an unknown name in the context, [optimize] stops in the validation. *)
Lemma optimize_unknown (acq : Acq) (pre post : Ctx) (name : string)
  (value : Value) (s : St) :
  names_known (space (self s)) pre = true ->
  contains (parameter_names (space (self s))) name = false ->
  run acq (Some (pre ++ (name, value) :: post)) s
  = (Raise (ValueError (not_in_space name)), s, map (diag (space (self s))) pre).
Proof.
  intros Hpre Hname. unfold optimize.
  erewrite bind_Raise; [reflexivity|].
  erewrite bind_Raise; [reflexivity|].
  now apply validate_unknown.
Qed.

(** With known names only, or no context, [optimize] reaches the search and
    ends in one of three ways. *)
Lemma optimize_known (acq : Acq) (ctxo : option Ctx) (s : St) :
  context_known (space (self s)) ctxo = true ->
  run acq ctxo s
  = let cm := context_manager_of s ctxo in
    let t := diags (space (self s)) ctxo
             ++ [NewContextManager cm; CallOptimize acq cm] in
    match _optimize acq cm s with
    | (inl e, s1) => (Raise (HookFailure e), s1, t)
    | (inr (x, v), s1) =>
        let r := round (space (self s1)) x in
        if array_equal x r then (Return (x, v), s1, t)
        else (Return (r, fst (evaluate acq r s1)),
              snd (evaluate acq r s1),
              t ++ [CallEvaluate acq r])
    end.
Proof.
  intros H. unfold optimize.
  erewrite bind_Return with (a := context_of ctxo) (s1 := s)
                            (t1 := diags (space (self s)) ctxo).
  2:{ destruct ctxo as [ctx|]; [|reflexivity].
      erewrite bind_Return by (apply validate_known; exact H).
      unfold result_of, store_of, trace_of, ret. cbn [fst snd].
      now rewrite app_nil_r. }
  unfold context_manager_of, result_of, store_of, trace_of.
  unfold bind, get, emit, call_optimize, call_evaluate, ret. cbn.
  destruct (_optimize acq _ s) as [[e|[x v]] s1]; cbn.
  - reflexivity.
  - destruct (array_equal x (round (space (self s1)) x)); cbn.
    + reflexivity.
    + destruct (evaluate acq (round (space (self s1)) x) s1) as [v' s2]; cbn.
      now rewrite <- app_assoc.
Qed.

Lemma diagnostic_is_log (sp : Space) (entry : string * Value) :
  is_log (diag sp entry) = true.
Proof.
  destruct entry as [name value]. unfold diagnostic.
  now destruct (Bool.eqb _ false).
Qed.

Lemma diagnostics_are_logs (sp : Space) (ctxo : option Ctx) (ev : Ev) :
  In ev (diags sp ctxo) -> is_log ev = true.
Proof.
  destruct ctxo as [ctx|]; cbn [diagnostics]; [|contradiction].
  intros Hin. apply in_map_iff in Hin. destruct Hin as [entry [<- _]].
  apply diagnostic_is_log.
Qed.

Lemma map_diagnostic_are_logs (sp : Space) (ctx : Ctx) (ev : Ev) :
  In ev (map (diag sp) ctx) -> is_log ev = true.
Proof. exact (diagnostics_are_logs sp (Some ctx) ev). Qed.

(** A context argument whose names are not all known is [Some] context
    that splits at its first unknown name. *)
Lemma context_unknown (sp : Space) (ctxo : option Ctx) :
  context_known sp ctxo = false ->
  exists pre name value post,
    ctxo = Some (pre ++ (name, value) :: post) /\
    names_known sp pre = true /\
    contains (parameter_names sp) name = false.
Proof.
  destruct ctxo as [ctx|]; unfold context_known; cbn [context_of]; intros H.
  - destruct (first_unknown sp ctx H) as (pre & name & value & post & -> & Hp & Hn).
    now exists pre, name, value, post.
  - discriminate.
Qed.

(** After a validation that passes, the only exception is one of the search. *)
Lemma optimize_known_result (acq : Acq) (ctxo : option Ctx) (s : St) :
  context_known (space (self s)) ctxo = true ->
  (exists e, result_of (run acq ctxo s) = Raise (HookFailure e)) \/
  (exists x v, result_of (run acq ctxo s) = Return (x, v)).
Proof.
  intros H. rewrite (optimize_known acq ctxo s H). cbv zeta.
  destruct (_optimize acq _ s) as [[e|[x v]] s1].
  - left. now exists e.
  - right. destruct (array_equal x _); eexists; eexists; reflexivity.
Qed.

(** ** Rounding and evaluation again *)

(** C1.  When the search returns a location [x] that [np.array_equal] tells
    apart from [space.round(x)], [optimize] returns the rounded location
    with what [acquisition.evaluate] answers at the rounded location, in
    the store the search left; the value [v] reported by the search appears
    nowhere in the result.  The evaluation is the last action of the call. *)
Theorem optimize_off_grid (acq : Acq) (ctxo : option Ctx) (s s1 : St)
  (x : Vec) (v : Scalar) :
  context_known (space (self s)) ctxo = true ->
  _optimize acq (context_manager_of s ctxo) s = (inr (x, v), s1) ->
  array_equal x (round (space (self s1)) x) = false ->
  let cm := context_manager_of s ctxo in
  let r := round (space (self s1)) x in
  run acq ctxo s
  = (Return (r, fst (evaluate acq r s1)),
     snd (evaluate acq r s1),
     diags (space (self s)) ctxo
     ++ [NewContextManager cm; CallOptimize acq cm; CallEvaluate acq r]).
Proof.
  intros Hctx Hhook Hneq cm r. subst cm r.
  rewrite (optimize_known acq ctxo s Hctx). cbv zeta.
  rewrite Hhook, Hneq.
  now rewrite <- app_assoc.
Qed.

(** C2.  When the search returns a location [x] that [np.array_equal] finds
    equal to [space.round(x)], [optimize] returns the location and the value
    of the search as they are, leaves the store as the search left it, and
    performs no action after the call of the search: in particular it does
    not call [acquisition.evaluate]. *)
Theorem optimize_on_grid (acq : Acq) (ctxo : option Ctx) (s s1 : St)
  (x : Vec) (v : Scalar) :
  context_known (space (self s)) ctxo = true ->
  _optimize acq (context_manager_of s ctxo) s = (inr (x, v), s1) ->
  array_equal x (round (space (self s1)) x) = true ->
  let cm := context_manager_of s ctxo in
  run acq ctxo s
  = (Return (x, v), s1,
     diags (space (self s)) ctxo ++ [NewContextManager cm; CallOptimize acq cm])
  /\ (forall ev, In ev (trace_of (run acq ctxo s)) -> is_evaluate ev = false).
Proof.
  intros Hctx Hhook Heq cm.
  assert (Hrun : run acq ctxo s
                 = (Return (x, v), s1,
                    diags (space (self s)) ctxo
                    ++ [NewContextManager cm; CallOptimize acq cm])).
  { rewrite (optimize_known acq ctxo s Hctx). cbv zeta.
    rewrite Hhook. now rewrite Heq. }
  split; [exact Hrun|].
  intros ev Hin. rewrite Hrun in Hin. unfold trace_of in Hin. cbn [snd] in Hin.
  apply in_app_or in Hin. destruct Hin as [Hin | [<- | [<- | []]]]; try reflexivity.
  apply diagnostics_are_logs in Hin. now destruct ev.
Qed.

(** C4.  Whenever [optimize] returns, the location it returns is a valid
    encoding of the space the optimizer holds when it rounds, that is, a
    vector that [space.round] leaves equal to itself under
    [np.array_equal]; this is so whether the search returned a valid
    encoding or not.  The rounding of the space is taken to land on valid
    encodings, as the specification describes it. *)
Theorem optimize_returns_valid_encoding (acq : Acq) (ctxo : option Ctx)
  (s s1 : St) (x loc : Vec) (v val : Scalar) :
  (forall y, valid (space (self s1)) (round (space (self s1)) y) = true) ->
  _optimize acq (context_manager_of s ctxo) s = (inr (x, v), s1) ->
  result_of (run acq ctxo s) = Return (loc, val) ->
  valid (space (self s1)) loc = true.
Proof.
  intros Hround Hhook Hres.
  destruct (context_known (space (self s)) ctxo) eqn:Hctx.
  - rewrite (optimize_known acq ctxo s Hctx) in Hres. cbv zeta in Hres.
    rewrite Hhook in Hres.
    destruct (array_equal x (round (space (self s1)) x)) eqn:Heq;
      unfold result_of in Hres; cbn [fst] in Hres; injection Hres as <- _.
    + exact Heq.
    + apply Hround.
  - destruct (context_unknown _ _ Hctx) as (pre & name & value & post & -> & Hp & Hn).
    rewrite (optimize_unknown acq pre post name value s Hp Hn) in Hres.
    discriminate Hres.
Qed.

(** ** Unknown names *)

(** C3.  [optimize] raises the [ValueError] of the validation exactly when
    some key of the context is not a parameter name of the space; the
    message then names such a key.  When it raises this error the search
    has not been called and the store is untouched.  A context whose keys
    are all parameter names never gets this error. *)
Theorem optimize_invalid_context_iff (acq : Acq) (ctx : Ctx) (s : St) :
  let names := parameter_names (space (self s)) in
  let r := run acq (Some ctx) s in
  ((exists name, In name (map fst ctx) /\ ~ In name names) <->
   (exists name, In name (map fst ctx) /\ ~ In name names /\
                 result_of r = Raise (ValueError (not_in_space name))))
  /\ (forall msg, result_of r = Raise (ValueError msg) ->
        store_of r = s /\
        forall ev, In ev (trace_of r) -> is_search ev = false)
  /\ ((forall name, In name (map fst ctx) -> In name names) ->
       forall msg, result_of r <> Raise (ValueError msg)).
Proof.
  intros names r. subst names r.
  destruct (names_known (space (self s)) ctx) eqn:Hknown.
  - (* every name is known *)
    assert (Hnot : forall msg,
               result_of (run acq (Some ctx) s) <> Raise (ValueError msg)).
    { intros msg Hres.
      destruct (optimize_known_result acq (Some ctx) s Hknown)
        as [[e He] | [x [v Hv]]]; rewrite Hres in *; discriminate. }
    pose proof (proj1 (names_known_In _ _) Hknown) as Hin.
    repeat split.
    + intros [name [Hkey Hname]]. contradiction Hname. now apply Hin.
    + intros [name [Hkey [Hname _]]]. contradiction Hname. now apply Hin.
    + now apply Hnot in H.
    + now apply Hnot in H.
    + intros _. exact Hnot.
  - (* some name is unknown: the first one raises *)
    destruct (first_unknown _ _ Hknown)
      as (pre & name & value & post & -> & Hp & Hn).
    unfold Context. rewrite (optimize_unknown acq pre post name value s Hp Hn).
    unfold result_of, store_of, trace_of. cbn [fst snd].
    assert (Hkey : In name (map fst (pre ++ (name, value) :: post))).
    { rewrite map_app. apply in_or_app. right. now left. }
    apply contains_not_In in Hn.
    repeat split.
    + intros _. now exists name.
    + intros _. now exists name.
    + intros ev Hev. apply map_diagnostic_are_logs in Hev. now destruct ev.
    + intros Hall. contradiction Hn. now apply Hall.
Qed.

(** C7.  The validation goes through the entries in the order of the
    context.  At the first entry whose name is not a parameter name it
    raises, having logged one record for each entry before it and nothing
    for the entries after it, which play no part in the outcome.  When all
    names are parameter names it returns whatever the membership checks
    answer: each entry only gets its log record. *)
Theorem validate_first_unknown_name (s : St) :
  (forall (pre post : Ctx) (name : string) (value : Value),
      (forall n, In n (map fst pre) -> In n (parameter_names (space (self s)))) ->
      ~ In name (parameter_names (space (self s))) ->
      validate (pre ++ (name, value) :: post) s
      = (Raise (ValueError (not_in_space name)), s,
         map (diag (space (self s))) pre))
  /\ (forall ctx : Ctx,
      (forall n, In n (map fst ctx) -> In n (parameter_names (space (self s)))) ->
      validate ctx s = (Return tt, s, map (diag (space (self s))) ctx)).
Proof.
  split.
  - intros pre post name value Hpre Hname.
    apply validate_unknown.
    + now apply names_known_In.
    + now apply contains_not_In.
  - intros ctx Hctx. apply validate_known. now apply names_known_In.
Qed.

(** ** Values out of the domain *)

(** C5.  For a context whose keys are all parameter names, whatever the
    membership checks answer: the validation returns; every entry whose
    value fails the check of its parameter has its warning in the log of
    [optimize]; the context manager is built from the context as it was
    supplied and it is this one that the search receives; [optimize] does
    not raise the error of the validation and it returns whenever the
    search does. *)
Theorem optimize_out_of_domain (acq : Acq) (ctx : Ctx) (s : St) :
  let sp := space (self s) in
  let cm := {| cm_space := sp; cm_context := ctx;
               cm_gpyopt_space := gpyopt_space (self s) |} in
  let r := run acq (Some ctx) s in
  (forall name, In name (map fst ctx) -> In name (parameter_names sp)) ->
  result_of (validate ctx s) = Return tt
  /\ (forall name value,
        In (name, value) ctx ->
        check_in_domain (get_parameter_by_name sp name) value = false ->
        In (LogWarning (name ++ " with value " ++ str value)
                       [" is out of the domain"])
           (trace_of r))
  /\ (exists logs rest,
        trace_of r = logs ++ NewContextManager cm :: CallOptimize acq cm :: rest
        /\ forall ev, In ev logs -> is_log ev = true)
  /\ (forall msg, result_of r <> Raise (ValueError msg))
  /\ (forall x v s1,
        _optimize acq cm s = (inr (x, v), s1) ->
        exists loc val, result_of r = Return (loc, val)).
Proof.
  intros sp cm r Hnames. subst r.
  assert (Hknown : context_known sp (Some ctx) = true)
    by now apply names_known_In.
  pose proof (optimize_known acq (Some ctx) s Hknown) as Hrun.
  cbv zeta in Hrun. change (context_manager_of s (Some ctx)) with cm in Hrun.
  fold sp in Hrun. cbn [diagnostics] in Hrun.
  assert (Htrace : exists rest,
             trace_of (run acq (Some ctx) s)
             = map (diag sp) ctx
               ++ NewContextManager cm :: CallOptimize acq cm :: rest).
  { rewrite Hrun. destruct (_optimize acq cm s) as [[e|[x v]] s1].
    - now exists [].
    - destruct (array_equal x _).
      + now exists [].
      + eexists. unfold trace_of. cbn [snd]. now rewrite <- app_assoc. }
  destruct Htrace as [rest Htrace].
  repeat split.
  - now rewrite (validate_known ctx s Hknown).
  - intros name value Hin Hcheck. rewrite Htrace. apply in_or_app. left.
    apply in_map_iff. exists (name, value). split; [|assumption].
    unfold diagnostic. fold sp. now rewrite Hcheck.
  - exists (map (diag sp) ctx), rest. split; [assumption|].
    intros ev. apply map_diagnostic_are_logs.
  - intros msg Hres.
    destruct (optimize_known_result acq (Some ctx) s Hknown)
      as [[e He] | [x [v Hv]]]; rewrite Hres in *; discriminate.
  - intros x v s1 Hhook. rewrite Hrun, Hhook.
    destruct (array_equal x _); eexists; eexists; reflexivity.
Qed.

(** ** No context *)

(** C6.  [optimize] without a context does what it does with an empty
    mapping: same outcome, same store, same actions.  Nothing is logged;
    the first action is the construction of a context manager over an
    empty context, which the search receives; whatever follows is an
    evaluation of the acquisition. *)
Theorem optimize_default_context (acq : Acq) (s : St) :
  let cm := {| cm_space := space (self s); cm_context := [];
               cm_gpyopt_space := gpyopt_space (self s) |} in
  run acq None s = run acq (Some []) s
  /\ (forall ev, In ev (trace_of (run acq None s)) -> is_log ev = false)
  /\ (forall msg, result_of (run acq None s) <> Raise (ValueError msg))
  /\ (exists rest,
        trace_of (run acq None s)
        = NewContextManager cm :: CallOptimize acq cm :: rest
        /\ forall ev, In ev rest -> is_evaluate ev = true).
Proof.
  intros cm.
  assert (Hrun : forall ctxo, ctxo = None \/ ctxo = Some [] ->
             run acq ctxo s
             = match _optimize acq cm s with
               | (inl e, s1) =>
                   (Raise (HookFailure e), s1,
                    [NewContextManager cm; CallOptimize acq cm])
               | (inr (x, v), s1) =>
                   let r := round (space (self s1)) x in
                   if array_equal x r
                   then (Return (x, v), s1,
                         [NewContextManager cm; CallOptimize acq cm])
                   else (Return (r, fst (evaluate acq r s1)),
                         snd (evaluate acq r s1),
                         [NewContextManager cm; CallOptimize acq cm;
                          CallEvaluate acq r])
               end).
  { intros ctxo [-> | ->]; now rewrite optimize_known. }
  unfold Context. rewrite (Hrun None) by now left. rewrite (Hrun (Some [])) by now right.
  split; [reflexivity|].
  destruct (_optimize acq cm s) as [[e|[x v]] s1]; cbv zeta;
    [|destruct (array_equal x _)];
    unfold result_of, trace_of; cbn [fst snd]; repeat split;
    try discriminate;
    try (intros ev [<- | [<- | [<- | []]]]; reflexivity);
    try (intros ev [<- | [<- | []]]; reflexivity).
  - now exists [].
  - now exists [].
  - eexists. split; [reflexivity|]. now intros ev [<- | []].
Qed.

(** ** Exceptions *)

(** C8.  An exception [e] of the search comes out of [optimize] as the
    same [e], from the store the search left, after one call of the search
    and nothing else: it is not caught, the search is not called again and
    the exception is not wrapped.  An unknown name raises in the
    validation, in the store of the call and before any call of the
    search. *)
Theorem optimize_propagates (acq : Acq) (s : St) :
  (forall (ctxo : option Ctx) (e : HookExn) (s1 : St),
      let cm := context_manager_of s ctxo in
      context_known (space (self s)) ctxo = true ->
      _optimize acq cm s = (inl e, s1) ->
      run acq ctxo s
      = (Raise (HookFailure e), s1,
         diags (space (self s)) ctxo ++ [NewContextManager cm; CallOptimize acq cm])
      /\ length (filter is_search (trace_of (run acq ctxo s))) = 1)
  /\ (forall (pre post : Ctx) (name : string) (value : Value),
      let r := run acq (Some (pre ++ (name, value) :: post)) s in
      names_known (space (self s)) pre = true ->
      ~ In name (parameter_names (space (self s))) ->
      result_of r = Raise (ValueError (not_in_space name))
      /\ store_of r = s
      /\ filter is_search (trace_of r) = []).
Proof.
  assert (Hlogs : forall (sp : Space) (ctxo : option Ctx),
             filter is_search (diags sp ctxo) = (@nil Ev)).
  { intros sp [ctx|]; [|reflexivity]. cbn [diagnostics].
    induction ctx as [|entry rest IH]; [reflexivity|].
    cbn [map filter]. rewrite IH.
    pose proof (diagnostic_is_log sp entry) as Hlog.
    now destruct (diag sp entry). }
  split.
  - intros ctxo e s1 cm Hctx Hhook. subst cm.
    rewrite (optimize_known acq ctxo s Hctx). cbv zeta. rewrite Hhook.
    split; [reflexivity|].
    unfold trace_of. cbn [snd]. rewrite filter_app, Hlogs. reflexivity.
  - intros pre post name value r Hpre Hname. subst r.
    apply contains_not_In in Hname.
    rewrite (optimize_unknown acq pre post name value s Hpre Hname).
    repeat split. unfold trace_of. cbn [snd].
    exact (Hlogs (space (self s)) (Some pre)).
Qed.

(** The base class writes nothing of its own: whatever observation of the
    store the search and the evaluations of the acquisition at hand leave as
    it is, a call of [optimize] leaves as it is, on every path. *)
Lemma optimize_preserves {T : Type} (f : St -> T) (acq : Acq) :
  (forall cm s, f (snd (_optimize acq cm s)) = f s) ->
  (forall x s, f (snd (evaluate acq x s)) = f s) ->
  forall ctxo s, f (store_of (run acq ctxo s)) = f s.
Proof.
  intros Hhook Heval ctxo s.
  destruct (context_known (space (self s)) ctxo) eqn:Hctx.
  - rewrite (optimize_known acq ctxo s Hctx). cbv zeta.
    specialize (Hhook (context_manager_of s ctxo) s).
    destruct (_optimize acq _ s) as [[e|[x v]] s1]; cbn [snd] in Hhook.
    + exact Hhook.
    + destruct (array_equal x _); unfold store_of; cbn [fst snd].
      * exact Hhook.
      * now rewrite Heval.
  - destruct (context_unknown _ _ Hctx) as (pre & name & value & post & -> & Hp & Hn).
    now rewrite (optimize_unknown acq pre post name value s Hp Hn).
Qed.

Lemma optimize_calls_preserve {T : Type} (f : St -> T)
  (calls : list (Acq * option Ctx)) :
  (forall call, In call calls ->
     forall cm s, f (snd (_optimize (fst call) cm s)) = f s) ->
  (forall call, In call calls ->
     forall x s, f (snd (evaluate (fst call) x s)) = f s) ->
  forall s, f (optimize_calls str array_equal _optimize calls s) = f s.
Proof.
  unfold optimize_calls.
  induction calls as [|[acq ctxo] calls IH]; intros Hhook Heval s;
    cbn [fold_left fst snd].
  - reflexivity.
  - rewrite IH.
    + apply optimize_preserves.
      * exact (Hhook (acq, ctxo) (or_introl eq_refl)).
      * exact (Heval (acq, ctxo) (or_introl eq_refl)).
    + intros call Hin. apply Hhook. now right.
    + intros call Hin. apply Heval. now right.
Qed.

(** ** What [optimize] leaves alone *)

(** C9.  The attributes [space] and [gpyopt_space] are what [__init__] made
    them after any number of calls of [optimize], whether they return or
    raise, and so is every observation [obs] of the rest of the store (the
    state of the space, of the acquisition) that the searches and the
    evaluations of these calls do not change themselves: the body of
    [optimize] contains no write. *)
Theorem optimize_frame (T : Type) (obs : World -> T)
  (calls : list (Acq * option Ctx)) :
  (forall call, In call calls ->
     forall cm s, self (snd (_optimize (fst call) cm s)) = self s) ->
  (forall call, In call calls ->
     forall cm s, obs (world (snd (_optimize (fst call) cm s))) = obs (world s)) ->
  (forall call, In call calls ->
     forall x s, self (snd (evaluate (fst call) x s)) = self s) ->
  (forall call, In call calls ->
     forall x s, obs (world (snd (evaluate (fst call) x s))) = obs (world s)) ->
  forall (sp : Space) (w : World),
    let s' := optimize_calls str array_equal _optimize calls
                {| self := __init__ sp; world := w |} in
    space (self s') = sp
    /\ gpyopt_space (self s') = convert_to_gpyopt_design_space sp
    /\ obs (world s') = obs w.
Proof.
  intros Hself_hook Hobs_hook Hself_eval Hobs_eval sp w s'. subst s'.
  rewrite (optimize_calls_preserve (@self _ _ _ _) calls Hself_hook Hself_eval).
  rewrite (optimize_calls_preserve (fun s => obs (world s)) calls
             Hobs_hook Hobs_eval).
  now repeat split.
Qed.

(** C10.  When [optimize] raises, the base class has evaluated nothing,
    and the attributes of the optimizer are those of before the call as
    long as the search of this call did not write them itself.  Either the
    error is the one of the validation: then the store is the one of the
    call and the only actions are log records, so no context manager was
    built and the search was not called.  Or the error is the one of the
    search: then the store is the one the search left and the failing call
    of the search is the last action, so no context manager was built
    after it. *)
Theorem optimize_error_paths (acq : Acq) (ctxo : option Ctx) (s : St)
  (e : exn HookExn) :
  let cm := context_manager_of s ctxo in
  let r := run acq ctxo s in
  result_of r = Raise e ->
  (forall ev, In ev (trace_of r) -> is_evaluate ev = false)
  /\ (self (snd (_optimize acq cm s)) = self s -> self (store_of r) = self s)
  /\ ((exists msg, e = ValueError msg /\ store_of r = s /\
                   forall ev, In ev (trace_of r) -> is_log ev = true)
      \/
      (exists he logs, e = HookFailure he /\
                      _optimize acq cm s = (inl he, store_of r) /\
                      trace_of r = logs ++ [NewContextManager cm; CallOptimize acq cm] /\
                      forall ev, In ev logs -> is_log ev = true)).
Proof.
  intros cm r Hres. subst cm r.
  destruct (context_known (space (self s)) ctxo) eqn:Hctx.
  - rewrite (optimize_known acq ctxo s Hctx) in *. cbv zeta in *.
    destruct (_optimize acq _ s) as [[he|[x v]] s1].
    + unfold result_of, store_of, trace_of in *. cbn [fst snd] in *.
      injection Hres as <-. repeat split.
      * intros ev Hin. apply in_app_or in Hin.
        destruct Hin as [Hin | [<- | [<- | []]]]; try reflexivity.
        apply diagnostics_are_logs in Hin. now destruct ev.
      * trivial.
      * right. exists he, (diags (space (self s)) ctxo). repeat split.
        apply diagnostics_are_logs.
    + destruct (array_equal x _); discriminate Hres.
  - destruct (context_unknown _ _ Hctx) as (pre & name & value & post & -> & Hp & Hn).
    rewrite (optimize_unknown acq pre post name value s Hp Hn) in *.
    unfold result_of, store_of, trace_of in *. cbn [fst snd] in *.
    injection Hres as <-. repeat split.
    + intros ev Hin. apply map_diagnostic_are_logs in Hin. now destruct ev.
    + left. exists (not_in_space name). repeat split.
      apply map_diagnostic_are_logs.
Qed.

(** ** More on the validation *)

(** The validation returns exactly when every name is known. *)
Lemma validate_returns_iff (ctx : Ctx) (s : St) :
  result_of (validate ctx s) = Return tt
  <-> names_known (space (self s)) ctx = true.
Proof.
  split.
  - intros Hres. destruct (names_known (space (self s)) ctx) eqn:Hknown; [reflexivity|].
    destruct (first_unknown _ _ Hknown) as (pre & name & value & post & -> & Hp & Hn).
    rewrite (validate_unknown pre post name value s Hp Hn) in Hres.
    discriminate Hres.
  - intros Hknown. now rewrite (validate_known ctx s Hknown).
Qed.

Lemma validate_raises_iff (ctx : Ctx) (s : St) :
  (exists msg, result_of (validate ctx s) = Raise (ValueError msg))
  <-> names_known (space (self s)) ctx = false.
Proof.
  split.
  - intros [msg Hres]. destruct (names_known (space (self s)) ctx) eqn:Hknown; [|reflexivity].
    rewrite (validate_known ctx s Hknown) in Hres. discriminate Hres.
  - intros Hknown.
    destruct (first_unknown _ _ Hknown) as (pre & name & value & post & -> & Hp & Hn).
    rewrite (validate_unknown pre post name value s Hp Hn).
    now exists (not_in_space name).
Qed.

(** X1.  On every context and on both of its paths,
    [_validate_context_parameters] leaves the store as it found it and does
    nothing but log, at most one record per entry; it has logged a record
    for every entry exactly when it returns. *)
Theorem validate_only_logs (ctx : Ctx) (s : St) :
  store_of (validate ctx s) = s
  /\ (forall ev, In ev (trace_of (validate ctx s)) -> is_log ev = true)
  /\ length (trace_of (validate ctx s)) <= length ctx
  /\ (length (trace_of (validate ctx s)) = length ctx
      <-> result_of (validate ctx s) = Return tt).
Proof.
  destruct (names_known (space (self s)) ctx) eqn:Hknown.
  - rewrite (validate_known ctx s Hknown).
    unfold store_of, trace_of, result_of. cbn [fst snd].
    rewrite length_map.
    split; [reflexivity|]. split; [apply map_diagnostic_are_logs|].
    split; [apply Nat.le_refl|]. now split.
  - destruct (first_unknown _ _ Hknown) as (pre & name & value & post & -> & Hp & Hn).
    rewrite (validate_unknown pre post name value s Hp Hn).
    unfold store_of, trace_of, result_of. cbn [fst snd].
    rewrite length_map, length_app. cbn [length].
    split; [reflexivity|]. split; [apply map_diagnostic_are_logs|].
    split; [lia|]. split; [lia | discriminate].
Qed.


(** X3.  Whether the validation raises does not depend on the order of the
    entries of the context; and when it returns, the log records of two
    orders of the same entries are the same records in another order.
    (The name in the message and the records logged before a failure do
    depend on the order.) *)
Theorem validate_permutation (ctx ctx' : Ctx) (s : St) :
  Permutation ctx ctx' ->
  ((exists msg, result_of (validate ctx s) = Raise (ValueError msg))
   <-> (exists msg, result_of (validate ctx' s) = Raise (ValueError msg)))
  /\ (result_of (validate ctx s) = Return tt ->
      result_of (validate ctx' s) = Return tt
      /\ Permutation (trace_of (validate ctx s)) (trace_of (validate ctx' s))).
Proof.
  intros Hperm.
  assert (Hsame : names_known (space (self s)) ctx
                  = names_known (space (self s)) ctx').
  { unfold names_known. clear -Hperm.
    induction Hperm as [| entry l l' _ IH | a b l | l l' l'' _ IH1 _ IH2];
      cbn [forallb].
    - reflexivity.
    - now rewrite IH.
    - rewrite !andb_assoc. f_equal. apply andb_comm.
    - now rewrite IH1. }
  split.
  - rewrite !validate_raises_iff. now rewrite Hsame.
  - intros Hres. apply validate_returns_iff in Hres.
    pose proof Hres as Hres'. rewrite Hsame in Hres'.
    rewrite (validate_known ctx s Hres), (validate_known ctx' s Hres').
    split; [reflexivity|]. unfold trace_of. cbn [snd].
    now apply Permutation_map.
Qed.

Lemma diagnostic_is_warning (sp : Space) (entry : string * Value) :
  is_warning (diag sp entry) = out_of_domain sp entry.
Proof.
  destruct entry as [name value]. unfold diagnostic, out_of_domain.
  cbn [fst snd]. now destruct (Bool.eqb _ false).
Qed.

Lemma diagnostic_is_info (sp : Space) (entry : string * Value) :
  is_info (diag sp entry) = negb (out_of_domain sp entry).
Proof.
  destruct entry as [name value]. unfold diagnostic, out_of_domain.
  cbn [fst snd]. now destruct (Bool.eqb _ false).
Qed.

(** X4.  When every name of the context is a parameter name, the log of
    the validation holds as many warnings as there are entries for which
    [check_in_domain] answers [False], as many informations as there are
    other entries, and nothing else. *)
Theorem validate_counts (ctx : Ctx) (s : St) :
  (forall name, In name (map fst ctx) -> In name (parameter_names (space (self s)))) ->
  let log := trace_of (validate ctx s) in
  length (filter is_warning log)
  = length (filter (out_of_domain (space (self s))) ctx)
  /\ length (filter is_info log)
     = length (filter (fun entry => negb (out_of_domain (space (self s)) entry)) ctx)
  /\ length (filter is_warning log) + length (filter is_info log) = length log.
Proof.
  intros Hnames log. subst log.
  apply names_known_In in Hnames. rewrite (validate_known ctx s Hnames).
  unfold trace_of. cbn [snd]. clear Hnames.
  induction ctx as [|[name value] rest IH].
  - now repeat split.
  - destruct IH as (IHw & IHi & IHsum).
    cbn [map filter]. rewrite diagnostic_is_warning, diagnostic_is_info.
    destruct (out_of_domain (space (self s)) (name, value));
      cbn [negb length]; rewrite ?IHw, ?IHi;
      (split; [reflexivity|]); (split; [reflexivity|]);
      rewrite <- ?IHw, <- ?IHi; lia.
Qed.




(** X6.  A context that the validation accepts for a space is accepted for
    every space that has at least the same parameter names; and when the
    two spaces hold the same parameter under each name of the context, the
    two validations log the same records. *)
Theorem validate_wider_space (ctx : Ctx) (s s' : St) :
  (forall n, In n (parameter_names (space (self s))) ->
             In n (parameter_names (space (self s')))) ->
  result_of (validate ctx s) = Return tt ->
  result_of (validate ctx s') = Return tt
  /\ ((forall n, In n (map fst ctx) ->
         get_parameter_by_name (space (self s)) n
         = get_parameter_by_name (space (self s')) n) ->
      trace_of (validate ctx s') = trace_of (validate ctx s)).
Proof.
  intros Hincl Hres. apply validate_returns_iff in Hres.
  assert (Hres' : names_known (space (self s')) ctx = true).
  { apply names_known_In. intros n Hn. apply Hincl.
    now apply (proj1 (names_known_In _ _) Hres). }
  rewrite (validate_known ctx s Hres), (validate_known ctx s' Hres').
  split; [reflexivity|]. intros Hsame. unfold trace_of. cbn [snd].
  apply map_ext_in. intros [name value] Hin. unfold diagnostic.
  rewrite (Hsame name); [reflexivity|].
  apply in_map_iff. now exists (name, value).
Qed.

(** ** More on [optimize] *)



Lemma filter_is_log_logs (logs : list Ev) :
  (forall ev, In ev logs -> is_log ev = true) ->
  filter is_log logs = logs.
Proof.
  induction logs as [|ev logs IH]; intros Hlogs; [reflexivity|].
  cbn [filter]. rewrite (Hlogs ev) by now left.
  f_equal. apply IH. intros ev' Hin. apply Hlogs. now right.
Qed.


(** X9.  The log records of a call of [optimize] are those of
    [_validate_context_parameters] on the context of the call, in the same
    order, whether the call returns or raises; there are none when the
    context is [None]. *)
Theorem optimize_logs (acq : Acq) (ctxo : option Ctx) (s : St) :
  filter is_log (trace_of (run acq ctxo s))
  = match ctxo with
    | None => []
    | Some ctx => trace_of (validate ctx s)
    end.
Proof.
  destruct (context_known (space (self s)) ctxo) eqn:Hctx.
  - rewrite (optimize_known acq ctxo s Hctx). cbv zeta.
    assert (Hlogs : filter is_log (diags (space (self s)) ctxo)
                    = match ctxo with
                      | None => []
                      | Some ctx => trace_of (validate ctx s)
                      end).
    { rewrite filter_is_log_logs by apply diagnostics_are_logs.
      destruct ctxo as [ctx|]; [|reflexivity].
      now rewrite (validate_known ctx s Hctx). }
    destruct (_optimize acq _ s) as [[e|[x v]] s1];
      [|destruct (array_equal x _)];
      unfold trace_of at 1; cbn [snd]; rewrite ?filter_app, Hlogs;
      cbn [filter is_log]; now rewrite ?app_nil_r.
  - destruct (context_unknown _ _ Hctx) as (pre & name & value & post & -> & Hp & Hn).
    rewrite (optimize_unknown acq pre post name value s Hp Hn).
    rewrite (validate_unknown pre post name value s Hp Hn).
    unfold trace_of. cbn [snd].
    apply filter_is_log_logs. apply map_diagnostic_are_logs.
Qed.

(** X10.  In a sequence of calls of [optimize], a call whose context has a
    key that is not a parameter name of the space the optimizer holds at
    that moment can be left out: the calls after it start from the same
    store and the sequence ends in the same store. *)
Theorem optimize_calls_skip_rejected (calls1 calls2 : list (Acq * option Ctx))
  (acq : Acq) (ctx : Ctx) (s : St) :
  let s1 := optimize_calls str array_equal _optimize calls1 s in
  (exists name, In name (map fst ctx) /\
                ~ In name (parameter_names (space (self s1)))) ->
  optimize_calls str array_equal _optimize (calls1 ++ (acq, Some ctx) :: calls2) s
  = optimize_calls str array_equal _optimize (calls1 ++ calls2) s.
Proof.
  intros s1 (name & Hkey & Hname).
  assert (Hknown : names_known (space (self s1)) ctx = false).
  { destruct (names_known (space (self s1)) ctx) eqn:H; [|reflexivity].
    contradiction Hname. now apply (proj1 (names_known_In _ _) H). }
  destruct (first_unknown _ _ Hknown) as (pre & n & v & post & -> & Hp & Hn).
  unfold optimize_calls in *. rewrite !fold_left_app. cbn [fold_left fst snd].
  fold s1. unfold Context.
  now rewrite (optimize_unknown acq pre post n v s1 Hp Hn).
Qed.

(** X11.  The search is called exactly when every key of the context, if
    there is one, is a parameter name of the space; it is called with the
    acquisition of the call and with the context manager built in the call;
    and every context manager that [optimize] builds holds a context whose
    keys are all parameter names of the space it holds: the validation
    keeps unknown names away from the context manager and the search. *)
Theorem optimize_search_after_validation (acq : Acq) (ctxo : option Ctx) (s : St) :
  let t := trace_of (run acq ctxo s) in
  let cm := context_manager_of s ctxo in
  ((exists a' cm', In (CallOptimize a' cm') t)
   <-> (forall name, In name (map fst (context_of ctxo)) ->
                     In name (parameter_names (space (self s)))))
  /\ (forall a' cm', In (CallOptimize a' cm') t -> a' = acq /\ cm' = cm)
  /\ (forall cm', In (NewContextManager cm') t ->
        cm' = cm
        /\ forall name, In name (map fst (cm_context cm')) ->
                        In name (parameter_names (cm_space cm'))).
Proof.
  intros t cm. subst t cm.
  assert (Hnotlog : forall (logs : list Ev) (ev : Ev),
             (forall ev', In ev' logs -> is_log ev' = true) ->
             is_log ev = false -> ~ In ev logs).
  { intros logs ev Hlogs Hev Hin. apply Hlogs in Hin. congruence. }
  destruct (context_known (space (self s)) ctxo) eqn:Hctx.
  - pose proof (proj1 (names_known_In _ _) Hctx) as Hnames.
    pose proof (diagnostics_are_logs (space (self s)) ctxo) as Hlogs.
    assert (Htrace : exists rest,
               trace_of (run acq ctxo s)
               = diags (space (self s)) ctxo
                 ++ NewContextManager (context_manager_of s ctxo)
                 :: CallOptimize acq (context_manager_of s ctxo) :: rest
               /\ forall ev, In ev rest -> is_evaluate ev = true).
    { rewrite (optimize_known acq ctxo s Hctx). cbv zeta.
      destruct (_optimize acq _ s) as [[e|[x v]] s1];
        [|destruct (array_equal x _)]; unfold trace_of; cbn [snd].
      - exists []. split; [reflexivity | intros ev []].
      - exists []. split; [reflexivity | intros ev []].
      - eexists. split; [now rewrite <- app_assoc|].
        now intros ev [<- | []]. }
    destruct Htrace as (rest & -> & Hrest).
    split; [|split].
    + split; [intros _; exact Hnames|]. intros _.
      exists acq, (context_manager_of s ctxo).
      apply in_or_app. right. right. now left.
    + intros a' cm' Hin. apply in_app_or in Hin.
      destruct Hin as [Hin | [Hin | [Hin | Hin]]].
      * now apply Hnotlog in Hin.
      * discriminate Hin.
      * now injection Hin as <- <-.
      * apply Hrest in Hin. discriminate Hin.
    + intros cm' Hin. apply in_app_or in Hin.
      destruct Hin as [Hin | [Hin | [Hin | Hin]]].
      * now apply Hnotlog in Hin.
      * injection Hin as <-. split; [reflexivity | exact Hnames].
      * discriminate Hin.
      * apply Hrest in Hin. discriminate Hin.
  - pose proof Hctx as Hctx'.
    destruct (context_unknown _ _ Hctx) as (pre & name & value & post & -> & Hp & Hn).
    rewrite (optimize_unknown acq pre post name value s Hp Hn).
    unfold trace_of. cbn [snd].
    pose proof (map_diagnostic_are_logs (space (self s)) pre) as Hlogs.
    split; [|split].
    + split.
      * intros (a' & cm' & Hin). now apply Hnotlog in Hin.
      * intros Hnames. apply names_known_In in Hnames.
        unfold context_known in Hctx'. rewrite Hnames in Hctx'. discriminate Hctx'.
    + intros a' cm' Hin. now apply Hnotlog in Hin.
    + intros cm' Hin. now apply Hnotlog in Hin.
Qed.

End Properties.

(** * The properties on the concrete optimizer *)

(** The rounding of the concrete space lands on its grid. *)
Lemma snap_idempotent (z : Z) : Scenario.snap (Scenario.snap z) = Scenario.snap z.
Proof.
  unfold Scenario.snap. Z.to_euclidean_division_equations. lia.
Qed.

Lemma scenario_array_equal_refl (a : list Z) : Scenario.array_equal a a = true.
Proof.
  unfold Scenario.array_equal. rewrite Nat.eqb_refl. cbn [andb].
  induction a as [|z a IH]; [reflexivity|].
  cbn [combine forallb fst snd]. now rewrite Z.eqb_refl, IH.
Qed.

Lemma scenario_round_valid (y : list Z) :
  valid_encoding Scenario.array_equal Scenario.the_space
    (round Scenario.the_space y) = true.
Proof.
  unfold valid_encoding. cbn [round Scenario.the_space].
  rewrite map_map. rewrite (map_ext _ _ snap_idempotent).
  apply scenario_array_equal_refl.
Qed.

(** The scenario of the specification: context [{"x": 3}], a search that
    reports 3.4 with the value 777; the result is 3.0 with the value the
    acquisition gives at 3.0. *)
Lemma optimize_off_grid_witness :
  Scenario.run Scenario.hook_off_grid Scenario.stub_acquisition
    (Some [("x", 30%Z)]) Scenario.store0
  = (Return ([30%Z], 30%Z),
     {| self := __init__ Scenario.the_space; world := 1%nat |},
     [LogInfo "Parameter x fixed to 30";
      NewContextManager (context_manager_of Scenario.store0 (Some [("x", 30%Z)]));
      CallOptimize Scenario.stub_acquisition
        (context_manager_of Scenario.store0 (Some [("x", 30%Z)]));
      CallEvaluate Scenario.stub_acquisition [30%Z]]).
Proof.
  exact (optimize_off_grid Scenario.str Scenario.array_equal
           Scenario.hook_off_grid Scenario.stub_acquisition
           (Some [("x", 30%Z)]) Scenario.store0
           (s1 := Scenario.store0) (x := [34%Z]) (v := 777%Z)
           eq_refl eq_refl eq_refl).
Defined.

(** A search that reports 3.0 with the value 777 gets both back, although
    the stub acquisition would answer 30 at 3.0. *)
Lemma optimize_on_grid_witness :
  Scenario.run Scenario.hook_on_grid Scenario.stub_acquisition
    (Some [("x", 30%Z)]) Scenario.store0
  = (Return ([30%Z], 777%Z),
     Scenario.store0,
     [LogInfo "Parameter x fixed to 30";
      NewContextManager (context_manager_of Scenario.store0 (Some [("x", 30%Z)]));
      CallOptimize Scenario.stub_acquisition
        (context_manager_of Scenario.store0 (Some [("x", 30%Z)]))])
  /\ (forall ev,
        In ev (trace_of (Scenario.run Scenario.hook_on_grid
                           Scenario.stub_acquisition
                           (Some [("x", 30%Z)]) Scenario.store0)) ->
        is_evaluate ev = false).
Proof.
  exact (optimize_on_grid Scenario.str Scenario.array_equal
           Scenario.hook_on_grid Scenario.stub_acquisition
           (Some [("x", 30%Z)]) Scenario.store0
           (s1 := Scenario.store0) (x := [30%Z]) (v := 777%Z)
           eq_refl eq_refl eq_refl).
Defined.

(** The location returned for a search that reports 3.4 is on the grid. *)
Lemma optimize_returns_valid_encoding_witness :
  result_of (Scenario.run Scenario.hook_off_grid Scenario.stub_acquisition
               None Scenario.store0)
  = Return ([30%Z], 30%Z)
  /\ valid_encoding Scenario.array_equal Scenario.the_space [30%Z] = true.
Proof.
  split; [reflexivity|].
  exact (optimize_returns_valid_encoding Scenario.str Scenario.array_equal
           Scenario.hook_off_grid Scenario.stub_acquisition
           None Scenario.store0
           (s1 := Scenario.store0) (x := [34%Z]) (loc := [30%Z])
           (v := 777%Z) (val := 30%Z)
           scenario_round_valid eq_refl eq_refl).
Defined.

(** A context with the unknown name ["y"] between two known ones. *)
Lemma optimize_invalid_context_iff_witness :
  exists name,
    In name ["x"; "y"; "x"] /\ ~ In name ["x"] /\
    result_of (Scenario.run Scenario.hook_on_grid Scenario.stub_acquisition
                 (Some [("x", 30%Z); ("y", 3%Z); ("x", 30%Z)]) Scenario.store0)
    = Raise (ValueError (not_in_space name)).
Proof.
  apply (proj1 (proj1 (optimize_invalid_context_iff Scenario.str
                         Scenario.array_equal Scenario.hook_on_grid
                         Scenario.stub_acquisition
                         [("x", 30%Z); ("y", 3%Z); ("x", 30%Z)]
                         Scenario.store0))).
  exists "y". split.
  - right. now left.
  - intros [H | []]. discriminate H.
Defined.

(** The entry before ["y"] is logged, the out-of-domain entry after it is
    not looked at. *)
Lemma validate_first_unknown_name_witness :
  @_validate_context_parameters Z (list Z) Z (list (string * Z * Z)) nat string
    Scenario.str [("x", 30%Z); ("y", 3%Z); ("x", 150%Z)] Scenario.store0
  = (Raise (ValueError "y appears as variable in context but not in the parameter space."),
     Scenario.store0,
     [LogInfo "Parameter x fixed to 30"]).
Proof.
  apply (proj1 (validate_first_unknown_name Z string Scenario.str Scenario.store0)
           [("x", 30%Z)] [("x", 150%Z)] "y" 3%Z).
  - intros n [<- | []]. now left.
  - intros [H | []]. discriminate H.
Defined.

(** The context [{"x": 15}], outside [[0, 10]]: a warning and a result. *)
Lemma optimize_out_of_domain_witness :
  In (LogWarning "x with value 150" [" is out of the domain"])
     (trace_of (Scenario.run Scenario.hook_off_grid Scenario.stub_acquisition
                  (Some [("x", 150%Z)]) Scenario.store0))
  /\ exists loc val,
       result_of (Scenario.run Scenario.hook_off_grid Scenario.stub_acquisition
                    (Some [("x", 150%Z)]) Scenario.store0)
       = Return (loc, val).
Proof.
  assert (Hnames : forall name, In name (map fst [("x", 150%Z)]) ->
                                In name (parameter_names Scenario.the_space)).
  { intros name [<- | []]. now left. }
  destruct (optimize_out_of_domain Scenario.str Scenario.array_equal
              Scenario.hook_off_grid Scenario.stub_acquisition
              [("x", 150%Z)] Scenario.store0 Hnames)
    as (_ & Hwarn & _ & _ & Hret).
  split.
  - apply (Hwarn "x" 150%Z); [now left | reflexivity].
  - apply (Hret [34%Z] 777%Z Scenario.store0). reflexivity.
Defined.

(** No context and the empty context on the concrete optimizer. *)
Lemma optimize_default_context_witness :
  Scenario.run Scenario.hook_off_grid Scenario.stub_acquisition None Scenario.store0
  = Scenario.run Scenario.hook_off_grid Scenario.stub_acquisition (Some [])
      Scenario.store0.
Proof.
  exact (proj1 (optimize_default_context Scenario.str Scenario.array_equal
                  Scenario.hook_off_grid Scenario.stub_acquisition
                  Scenario.store0)).
Defined.

(** The failure of the search comes out as it was raised. *)
Lemma optimize_propagates_witness :
  Scenario.run Scenario.hook_failing Scenario.stub_acquisition
    (Some [("x", 150%Z)]) Scenario.store0
  = (Raise (HookFailure "search failed"),
     Scenario.store0,
     [LogWarning "x with value 150" [" is out of the domain"];
      NewContextManager (context_manager_of Scenario.store0 (Some [("x", 150%Z)]));
      CallOptimize Scenario.stub_acquisition
        (context_manager_of Scenario.store0 (Some [("x", 150%Z)]))]).
Proof.
  exact (proj1 (proj1 (optimize_propagates Scenario.str Scenario.array_equal
                         Scenario.hook_failing Scenario.stub_acquisition
                         Scenario.store0)
                  (Some [("x", 150%Z)]) "search failed" Scenario.store0
                  eq_refl eq_refl)).
Defined.

(** Three calls, the second of which raises, on a freshly built optimizer. *)
Lemma optimize_frame_witness :
  let calls := [(Scenario.plain_acquisition, Some [("x", 30%Z)]);
                (Scenario.plain_acquisition, Some [("y", 3%Z)]);
                (Scenario.plain_acquisition, None)] in
  let s' := optimize_calls Scenario.str Scenario.array_equal
              Scenario.hook_off_grid calls
              {| self := __init__ Scenario.the_space; world := 7%nat |} in
  space (self s') = Scenario.the_space
  /\ gpyopt_space (self s') = [("x", 0%Z, 100%Z)]
  /\ world s' = 7%nat.
Proof.
  intros calls.
  apply (optimize_frame Scenario.str Scenario.array_equal
           Scenario.hook_off_grid (fun w : nat => w) calls).
  - intros call _ cm s. reflexivity.
  - intros call _ cm s. reflexivity.
  - intros call [<- | [<- | [<- | []]]] x s; reflexivity.
  - intros call [<- | [<- | [<- | []]]] x s; reflexivity.
Defined.

(** A failing search leaves the attributes of the optimizer as built. *)
Lemma optimize_error_paths_witness :
  self (store_of (Scenario.run Scenario.hook_failing Scenario.stub_acquisition
                    (Some [("x", 30%Z)]) Scenario.store0))
  = __init__ Scenario.the_space
  /\ (forall ev,
        In ev (trace_of (Scenario.run Scenario.hook_failing
                           Scenario.stub_acquisition
                           (Some [("x", 30%Z)]) Scenario.store0)) ->
        is_evaluate ev = false).
Proof.
  destruct (optimize_error_paths Scenario.str Scenario.array_equal
              Scenario.hook_failing Scenario.stub_acquisition
              (Some [("x", 30%Z)]) Scenario.store0
              (e := HookFailure "search failed") eq_refl)
    as (Heval & Hself & _).
  split; [exact (Hself eq_refl) | exact Heval].
Defined.

(** * The further properties on the concrete optimizers *)

(** A context whose second name is unknown: one record, the store as it was. *)
Lemma validate_only_logs_witness :
  store_of (ScenarioXY.validate [("x", 30%Z); ("y", 3%Z); ("x", 150%Z)]
              Scenario.store0)
  = Scenario.store0
  /\ length (trace_of (ScenarioXY.validate
                         [("x", 30%Z); ("y", 3%Z); ("x", 150%Z)]
                         Scenario.store0)) <= 3.
Proof.
  destruct (validate_only_logs Z string Scenario.str
              [("x", 30%Z); ("y", 3%Z); ("x", 150%Z)] Scenario.store0)
    as (Hstore & _ & Hlen & _).
  split; [exact Hstore | exact Hlen].
Defined.


(** The two orders of a context over ["x"] and ["y"]. *)
Lemma validate_permutation_witness :
  Permutation
    (trace_of (ScenarioXY.validate [("y", 150%Z); ("x", 30%Z)] ScenarioXY.store_xy))
    (trace_of (ScenarioXY.validate [("x", 30%Z); ("y", 150%Z)] ScenarioXY.store_xy)).
Proof.
  apply (proj2 (validate_permutation Z string Scenario.str ScenarioXY.store_xy
                  (perm_swap ("x", 30%Z) ("y", 150%Z) []))).
  reflexivity.
Defined.

(** One entry out of the domain out of two: one warning. *)
Lemma validate_counts_witness :
  length (filter is_warning
            (trace_of (ScenarioXY.validate [("x", 30%Z); ("y", 150%Z)]
                         ScenarioXY.store_xy)))
  = 1.
Proof.
  assert (Hnames : forall name,
             In name (map fst [("x", 30%Z); ("y", 150%Z)]) ->
             In name (parameter_names (space (self ScenarioXY.store_xy)))).
  { intros name [<- | [<- | []]]; [now left | right; now left]. }
  pose proof (validate_counts Z string Scenario.str
                [("x", 30%Z); ("y", 150%Z)] ScenarioXY.store_xy Hnames) as H.
  cbv zeta in H. destruct H as (Hwarnings & _).
  exact (eq_trans Hwarnings eq_refl).
Defined.


(** From the space over ["x"] to the space over ["x"] and ["y"]. *)
Lemma validate_wider_space_witness :
  result_of (ScenarioXY.validate [("x", 150%Z)] ScenarioXY.store_xy) = Return tt
  /\ trace_of (ScenarioXY.validate [("x", 150%Z)] ScenarioXY.store_xy)
     = trace_of (ScenarioXY.validate [("x", 150%Z)] Scenario.store0).
Proof.
  assert (Hincl : forall n,
             In n (parameter_names (space (self Scenario.store0))) ->
             In n (parameter_names (space (self ScenarioXY.store_xy)))).
  { intros n [<- | []]. now left. }
  destruct (validate_wider_space Z Scenario.str [("x", 150%Z)]
              Scenario.store0 ScenarioXY.store_xy (HookExn := string)
              Hincl eq_refl) as [Hres Hlog].
  split; [exact Hres|]. apply Hlog. intros n _. reflexivity.
Defined.



(** The log of a call whose search fails is the log of the validation. *)
Lemma optimize_logs_witness :
  filter is_log
    (trace_of (Scenario.run Scenario.hook_failing Scenario.stub_acquisition
                 (Some [("x", 150%Z)]) Scenario.store0))
  = trace_of (ScenarioXY.validate [("x", 150%Z)] Scenario.store0).
Proof.
  exact (optimize_logs Scenario.str Scenario.array_equal
           Scenario.hook_failing Scenario.stub_acquisition
           (Some [("x", 150%Z)]) Scenario.store0).
Defined.

(** A rejected call between two accepted ones. *)
Lemma optimize_calls_skip_rejected_witness :
  optimize_calls Scenario.str Scenario.array_equal Scenario.hook_off_grid
    ([(Scenario.stub_acquisition, None)]
     ++ (Scenario.stub_acquisition, Some [("y", 3%Z)])
     :: [(Scenario.stub_acquisition, Some [("x", 30%Z)])])
    Scenario.store0
  = optimize_calls Scenario.str Scenario.array_equal Scenario.hook_off_grid
      ([(Scenario.stub_acquisition, None)]
       ++ [(Scenario.stub_acquisition, Some [("x", 30%Z)])])
      Scenario.store0.
Proof.
  apply (optimize_calls_skip_rejected Scenario.str Scenario.array_equal
           Scenario.hook_off_grid).
  exists "y". split.
  - now left.
  - intros [H | []]. discriminate H.
Defined.

(** The search of an accepted call gets the acquisition and the context
    manager of the call. *)
Lemma optimize_search_after_validation_witness :
  exists a' cm',
    In (CallOptimize a' cm')
       (trace_of (Scenario.run Scenario.hook_on_grid Scenario.stub_acquisition
                    (Some [("x", 150%Z)]) Scenario.store0)).
Proof.
  apply (proj2 (proj1 (optimize_search_after_validation Scenario.str
                         Scenario.array_equal Scenario.hook_on_grid
                         Scenario.stub_acquisition
                         (Some [("x", 150%Z)]) Scenario.store0))).
  intros name [<- | []]. now left.
Defined.
